(** * Event-driven chat server (event-driven-architecture/app.go)

    A shallow embedding of the event bus, the chat server's client registry
    and handlers, the accept loop of [ChatServer.Start], the reader loop of
    [Client.Start] and [main]. *)

From Stdlib Require Import Strings.String Strings.Byte.
From stdpp Require Import base gmap strings list sets pretty.

Local Open Scope list_scope.

(* ------------------------------------------------------------------ *)
(** ** Go values *)

(** A [net.Conn] is an opaque handle; handles are compared by identity. *)
Definition conn := nat.

(** A Go [string] is an immutable byte sequence. *)
Definition gostring := list byte.

(** [interface{}]: the dynamic payload of an [Event].  Besides the two
    shapes the program uses, any other dynamic type may be stored. *)
Inductive value :=
| VConn (c : conn)
| VString (s : gostring)
| VInt (z : Z)
| VNil.

(** [type Event struct { Type string; Data interface{} }] *)
Record Event := mkEvent { ev_type : string; ev_data : value }.

(** Outcome of a Go call that may panic. *)
Inductive res (A : Type) :=
| Ok (a : A)
| Panic (msg : string).
Arguments Ok {A} a.
Arguments Panic {A} msg.

Global Instance res_ret : MRet res := fun _ a => Ok a.
Global Instance res_bind : MBind res := fun A B f m =>
  match m with Ok a => f a | Panic m => Panic m end.

(* ------------------------------------------------------------------ *)
(** ** EventBus *)

Module Bus.
Section Bus.
Context {H : Type}.

(** [handlers map[string][]EventHandler]; a missing key reads as the
    nil slice. *)
Definition handlers_for (bus : gmap string (list H)) (t : string) : list H :=
  default [] (bus !! t).

(** [NewEventBus] *)
Definition NewEventBus : gmap string (list H) := ∅.

(** [Register]: read the slice, append, store it back. *)
Definition Register (bus : gmap string (list H)) (t : string) (h : H)
  : gmap string (list H) :=
  <[t := handlers_for bus t ++ [h]]> bus.

Context {S : Type}.
(** How a handler value runs on an event: a Go [func(Event)] closing over
    mutable state [S]; it may panic. *)
Variable run : H -> Event -> S -> res S.

(** [for _, handler := range handlers { handler(event) }]: each call
    runs to completion before the next; a panic propagates. *)
Fixpoint run_all (hs : list H) (ev : Event) (s : S) : res S :=
  match hs with
  | [] => Ok s
  | h :: hs' => s' ← run h ev s; run_all hs' ev s'
  end.

(** [Dispatch]: the slice is read once, before the loop. *)
Definition Dispatch (bus : gmap string (list H)) (t : string) (d : value)
    (s : S) : res S :=
  run_all (handlers_for bus t) (mkEvent t d) s.
End Bus.
End Bus.

(** Registering a sequence of handlers for one type, in order. *)
Fixpoint register_all {H} (bus : gmap string (list H)) (t : string) (hs : list H)
  : gmap string (list H) :=
  match hs with
  | [] => bus
  | h :: hs' => register_all (Bus.Register bus t h) t hs'
  end.

(** An instrumented handler run: each handler records itself in a log of
    invocations when it is called. *)
Definition record_run {H} (h : H) (_ : Event) (log : list H) : res (list H) :=
  Ok (log ++ [h]).

(** Each handler is called with the event and the state; it appends to
    the list it is given. *)
Definition trace_disp (t : string) (v : value) (tr : list (string * value))
  : res (list (string * value)) :=
  Ok (tr ++ [(t, v)]).

(* ------------------------------------------------------------------ *)
(** ** ChatServer *)

(** Lines printed with [fmt.Printf]. *)
Inductive notice :=
| NListening (port : string)
| NNewConnection (c : conn)
| NDisconnected (c : conn)
| NAcceptError (e : string)
| NStartError (e : string).

(** The three method values registered by [Start]. *)
Inductive handler :=
| OnNewConnection
| OnDisconnected
| OnMessageReceived.

(** [type ChatServer struct { eventBus *EventBus; clients map[net.Conn]bool }],
    together with what the process has written to each connection and
    printed. *)
Record ChatServer := mkServer {
  cs_bus : gmap string (list handler);
  cs_clients : gset conn;
  cs_written : conn -> gostring;
  cs_log : list notice
}.

(** What the outside world decides: whether [conn.Write] to a connection
    fails, and the (unspecified) order in which [range] visits the keys of
    the [clients] map. *)
Record Env := mkEnv {
  write_ok : conn -> bool;
  range_order : gset conn -> list conn
}.

(** [NewChatServer] *)
Definition NewChatServer : ChatServer :=
  mkServer Bus.NewEventBus ∅ (fun _ => []) [].

Definition set_bus (st : ChatServer) b : ChatServer :=
  mkServer b (cs_clients st) (cs_written st) (cs_log st).
Definition set_clients (st : ChatServer) cl : ChatServer :=
  mkServer (cs_bus st) cl (cs_written st) (cs_log st).
Definition add_notice (st : ChatServer) (n : notice) : ChatServer :=
  mkServer (cs_bus st) (cs_clients st) (cs_written st) (cs_log st ++ [n]).
(** A successful [conn.Write([]byte(msg))]. *)
Definition write_conn (st : ChatServer) (c : conn) (msg : gostring) : ChatServer :=
  mkServer (cs_bus st) (cs_clients st)
    (fun c' => if decide (c' = c) then cs_written st c' ++ msg else cs_written st c')
    (cs_log st).

(** The unchecked type assertions [event.Data.(net.Conn)] and
    [event.Data.(string)]. *)
Definition assert_conn (v : value) : res conn :=
  match v with
  | VConn c => Ok c
  | _ => Panic "interface conversion: interface {} is not net.Conn"
  end.
Definition assert_string (v : value) : res gostring :=
  match v with
  | VString s => Ok s
  | _ => Panic "interface conversion: interface {} is not string"
  end.

(** [onNewConnection]: [cs.clients[conn] = true] and a notice. *)
Definition onNewConnection (ev : Event) (st : ChatServer) : res ChatServer :=
  c ← assert_conn (ev_data ev);
  Ok (add_notice (set_clients st ({[c]} ∪ cs_clients st)) (NNewConnection c)).

(** [onDisconnected]: [delete(cs.clients, conn)] and a notice. *)
Definition onDisconnected (ev : Event) (st : ChatServer) : res ChatServer :=
  c ← assert_conn (ev_data ev);
  Ok (add_notice (set_clients st (cs_clients st ∖ {[c]})) (NDisconnected c)).

(** The loop of [onMessageReceived] over a snapshot of the keys; on a
    failed write it calls [nested], i.e. [cs.eventBus.Dispatch("disconnected", conn)]. *)
Fixpoint broadcast (env : Env) (nested : conn -> ChatServer -> res ChatServer)
    (msg : gostring) (cs : list conn) (st : ChatServer) : res ChatServer :=
  match cs with
  | [] => Ok st
  | c :: cs' =>
      st' ← (if write_ok env c then Ok (write_conn st c msg) else nested c st);
      broadcast env nested msg cs' st'
  end.

(** [onMessageReceived] *)
Definition onMessageReceived (env : Env) (nested : conn -> ChatServer -> res ChatServer)
    (ev : Event) (st : ChatServer) : res ChatServer :=
  msg ← assert_string (ev_data ev);
  broadcast env nested msg (range_order env (cs_clients st)) st.

Definition run_handler_with (env : Env) (nested : conn -> ChatServer -> res ChatServer)
    (h : handler) (ev : Event) (st : ChatServer) : res ChatServer :=
  match h with
  | OnNewConnection => onNewConnection ev st
  | OnDisconnected => onDisconnected ev st
  | OnMessageReceived => onMessageReceived env nested ev st
  end.

(** The only dispatch issued from inside a handler is the
    [Dispatch("disconnected", conn)] of [onMessageReceived].  Its payload is
    a connection, so at that nesting level [onMessageReceived] (if it is
    registered for "disconnected" at all) fails its string assertion before
    it broadcasts: the nested level never dispatches again, and its own
    [nested] argument is never used (lemma [nested_irrelevant]). *)
Definition no_deeper : conn -> ChatServer -> res ChatServer :=
  fun _ _ => Panic "unreachable".

Definition dispatch_nested (env : Env) (st : ChatServer) (t : string) (d : value)
  : res ChatServer :=
  Bus.Dispatch (run_handler_with env no_deeper) (cs_bus st) t d st.

Definition run_handler (env : Env) : handler -> Event -> ChatServer -> res ChatServer :=
  run_handler_with env (fun c st => dispatch_nested env st "disconnected" (VConn c)).

(** [cs.eventBus.Dispatch(t, d)] on the server. *)
Definition Dispatch (env : Env) (st : ChatServer) (t : string) (d : value)
  : res ChatServer :=
  Bus.Dispatch (run_handler env) (cs_bus st) t d st.

(** The bus after the three [Register] calls of [Start]. *)
Definition register_handlers (b : gmap string (list handler)) : gmap string (list handler) :=
  Bus.Register (Bus.Register (Bus.Register b "new-connection" OnNewConnection)
    "disconnected" OnDisconnected) "message-received" OnMessageReceived.

Definition server_bus : gmap string (list handler) := register_handlers Bus.NewEventBus.

(* ------------------------------------------------------------------ *)
(** ** Start and main *)

(** Result of [net.Listen("tcp", port)] and of each [listener.Accept()]. *)
Inductive listen_result := ListenOk | ListenErr (e : string).
Inductive accept_result := AcceptOk (c : conn) | AcceptErr (e : string).

(** The process: the server and the connections that have a goroutine
    running a reader loop ([Client.Start]). *)
Record Process := mkProcess {
  pr_server : ChatServer;
  pr_readers : list conn
}.

Inductive start_outcome :=
| StartReturned (err : string) (p : Process)  (** [Start] returned [err] *)
| StartServing (p : Process)                   (** still in the accept loop *)
| StartPanicked (msg : string).

(** [for { conn, err := listener.Accept(); ... }], run over the results
    of the first accepts; the loop itself never exits. *)
Fixpoint accept_loop (env : Env) (accepts : list accept_result) (p : Process)
  : start_outcome :=
  match accepts with
  | [] => StartServing p
  | AcceptErr e :: rest =>
      accept_loop env rest
        (mkProcess (add_notice (pr_server p) (NAcceptError e)) (pr_readers p))
  | AcceptOk c :: rest =>
      match Dispatch env (pr_server p) "new-connection" (VConn c) with
      | Ok st' => accept_loop env rest (mkProcess st' (pr_readers p))
      | Panic m => StartPanicked m
      end
  end.

(** [func (cs *ChatServer) Start(port string) error] *)
Definition Start (env : Env) (port : string) (l : listen_result)
    (accepts : list accept_result) (p : Process) : start_outcome :=
  match l with
  | ListenErr e => StartReturned e p
  | ListenOk =>
      let st := add_notice (pr_server p) (NListening port) in
      let st := set_bus st (register_handlers (cs_bus st)) in
      accept_loop env accepts (mkProcess st (pr_readers p))
  end.

Inductive main_outcome :=
| Exited (p : Process)
| Running (p : Process)
| Crashed (msg : string).

(** [main] *)
Definition main (env : Env) (l : listen_result) (accepts : list accept_result)
  : main_outcome :=
  match Start env ":8000" l accepts (mkProcess NewChatServer []) with
  | StartReturned e p =>
      Exited (mkProcess (add_notice (pr_server p) (NStartError e)) (pr_readers p))
  | StartServing p => Running p
  | StartPanicked m => Crashed m
  end.

(* ------------------------------------------------------------------ *)
(** ** Client.Start (the reader loop) *)

(** One [c.conn.Read(buf)]: the bytes the peer delivers and whether an
    error (including [io.EOF]) is returned. *)
Record read_result := mkRead { rd_bytes : list byte; rd_err : bool }.

(** [make([]byte, 1024)] *)
Definition buf_size : nat := 1024.

(** [Read] copies at most [len(buf)] bytes to the front of [buf] and
    returns their number [n]. *)
Definition conn_read (buf : list byte) (r : read_result) : nat * list byte :=
  let n := Nat.min (length (rd_bytes r)) (length buf) in
  (n, take n (rd_bytes r) ++ drop n buf).

Inductive loop_outcome (S : Type) :=
| LoopEnded (s : S)      (** left the loop by [break] *)
| LoopBlocked (s : S)    (** still looping, waiting in the next [Read] *)
| LoopPanicked (msg : string).
Arguments LoopEnded {S} s.
Arguments LoopBlocked {S} s.
Arguments LoopPanicked {S} msg.

Section Reader.
Context {S : Type}.
(** [c.eventBus.Dispatch] *)
Variable disp : string -> value -> S -> res S.
Variable c : conn.

Fixpoint read_loop (buf : list byte) (reads : list read_result) (s : S)
  : loop_outcome S :=
  match reads with
  | [] => LoopBlocked s
  | r :: rest =>
      let '(n, buf') := conn_read buf r in
      if rd_err r then
        match disp "disconnected" (VConn c) s with
        | Ok s' => LoopEnded s'
        | Panic m => LoopPanicked m
        end
      else
        match disp "message-received" (VString (take n buf')) s with
        | Ok s' => read_loop buf' rest s'
        | Panic m => LoopPanicked m
        end
  end.

(** [func (c *Client) Start()] *)
Definition ClientStart (reads : list read_result) (s : S) : loop_outcome S :=
  match disp "new-connection" (VConn c) s with
  | Ok s' => read_loop (repeat Byte.x00 buf_size) reads s'
  | Panic m => LoopPanicked m
  end.
End Reader.

(** The connections an accept sequence hands over, and the notices the
    accept loop prints for it. *)
Definition accepted_conns (accepts : list accept_result) : list conn :=
  flat_map (fun a => match a with AcceptOk c => [c] | AcceptErr _ => [] end) accepts.
Definition accept_notices (accepts : list accept_result) : list notice :=
  flat_map (fun a => match a with
                     | AcceptOk c => [NNewConnection c]
                     | AcceptErr e => [NAcceptError e]
                     end) accepts.

Definition run_panicky (h : nat) (_ : Event) (log : list nat) : res (list nat) :=
  if Nat.eqb h 0 then Panic "boom" else Ok (log ++ [h]).


(* ------------------------------------------------------------------ *)
(** ** Circuit breaker example (unnamed/part_000) *)

Module CircuitBreaker.

(** Effects of the HTTP [handler]: the outgoing GET and what it writes to
    the [http.ResponseWriter]. *)
Inductive action :=
| HttpGet (url : string)
| WriteHeader (code : Z)
| WriteBody (body : string).

(** Result of [http.Get]: a transport error or a response status. *)
Inductive get_result := GetErr (e : string) | GetResp (status : Z).

Definition StatusOK : Z := 200.
Definition StatusInternalServerError : Z := 500.

(** The closure given to [hystrix.Do]: its effects and its [error] result.
    [fmt.Errorf("unexpected status code: %d", ...)] prints the code in
    decimal, which is stdpp's [pretty] on [Z]. *)
Definition request (g : get_result) : list action * option string :=
  ([HttpGet "https://www.example.com"],
   match g with
   | GetErr e => Some e
   | GetResp s =>
       if Z.eqb s StatusOK then None
       else Some (String.append "unexpected status code: " (pretty s))
   end).

(** [hystrix.Do("my_service", run, nil)] lives in a library outside this
    repository; what it does with the closure is decided by the circuit's
    state: run it and return its error, reject the call without running it
    (open circuit, too many concurrent requests), or run it and report a
    timeout instead of its result. *)
Inductive do_decision := DoRun | DoReject (e : string) | DoTimeout (e : string).

Definition hystrix_Do (d : do_decision) (run : list action * option string)
  : list action * option string :=
  match d with
  | DoRun => run
  | DoReject e => ([], Some e)
  | DoTimeout e => (fst run, Some e)
  end.

(** [func handler(w http.ResponseWriter, r *http.Request)] *)
Definition handler (d : do_decision) (g : get_result) : list action :=
  let '(acts, err) := hystrix_Do d (request g) in
  match err with
  | Some e =>
      acts ++ [WriteHeader StatusInternalServerError; WriteBody (String.append "Error: " e)]
  | None => acts ++ [WriteHeader StatusOK; WriteBody "Success"]
  end.

End CircuitBreaker.

(* ------------------------------------------------------------------ *)
(** ** Small runs *)

Definition env_demo : Env := mkEnv (fun c => negb (Nat.eqb c 2)) elements.

Definition demo_start : start_outcome :=
  Start env_demo ":8000" ListenOk [AcceptOk 1; AcceptErr "timeout"; AcceptOk 2]
    (mkProcess NewChatServer []).

Example demo_start_clients :
  match demo_start with
  | StartServing p => cs_clients (pr_server p) = {[1; 2]} /\ pr_readers p = []
  | _ => False
  end.
Proof. vm_compute. split; [set_solver | reflexivity]. Qed.

Example demo_broadcast :
  match demo_start with
  | StartServing p =>
      match Dispatch env_demo (pr_server p) "message-received" (VString [x68; x69]) with
      | Ok st => cs_written st 1 = [x68; x69] /\ cs_written st 2 = [] /\
                 cs_clients st = {[1]} /\
                 cs_log st = [NListening ":8000"; NNewConnection 1;
                              NAcceptError "timeout"; NNewConnection 2; NDisconnected 2]
      | Panic _ => False
      end
  | _ => False
  end.
Proof. vm_compute. repeat split; set_solver. Qed.

Example demo_reader :
  ClientStart trace_disp 7 [mkRead [x61] false; mkRead [] true] [] =
  LoopEnded [("new-connection", VConn 7); ("message-received", VString [x61]);
             ("disconnected", VConn 7)].
Proof. vm_compute. reflexivity. Qed.

(* ------------------------------------------------------------------ *)
(** ** Lemmas on the event bus *)

Lemma bind_Ok {A B} (m : res A) (f : A -> res B) b :
  (m ≫= f) = Ok b <-> exists a, m = Ok a /\ f a = Ok b.
Proof.
  destruct m as [a|msg]; simpl; split.
  - intros H. eauto.
  - intros (a' & Ha & Hf). injection Ha as ->. exact Hf.
  - discriminate.
  - intros (a' & Ha & _). discriminate.
Qed.

Lemma handlers_for_Register_eq {H} (bus : gmap string (list H)) t h :
  Bus.handlers_for (Bus.Register bus t h) t = Bus.handlers_for bus t ++ [h].
Proof. unfold Bus.handlers_for, Bus.Register. by rewrite lookup_insert_eq. Qed.

Lemma Register_lookup_ne {H} (bus : gmap string (list H)) t t' h :
  t' <> t -> Bus.Register bus t h !! t' = bus !! t'.
Proof. intros Hne. unfold Bus.Register. by rewrite lookup_insert_ne. Qed.

Lemma handlers_for_register_all {H} (bus : gmap string (list H)) t hs :
  Bus.handlers_for (register_all bus t hs) t = Bus.handlers_for bus t ++ hs.
Proof.
  revert bus. induction hs as [|h hs IH]; intros bus; simpl.
  - by rewrite app_nil_r.
  - rewrite IH, handlers_for_Register_eq. by rewrite <- app_assoc.
Qed.

Lemma run_all_record {H} (hs : list H) ev (log : list H) :
  Bus.run_all record_run hs ev log = Ok (log ++ hs).
Proof.
  revert log. induction hs as [|h hs IH]; intros log; simpl.
  - by rewrite app_nil_r.
  - unfold record_run at 1. simpl. rewrite IH. by rewrite <- app_assoc.
Qed.

Lemma run_all_preserves {H S B} (run : H -> Event -> S -> res S) (f : S -> B) hs ev s s' :
  (forall h s0 s1, run h ev s0 = Ok s1 -> f s1 = f s0) ->
  Bus.run_all run hs ev s = Ok s' -> f s' = f s.
Proof.
  intros Hrun. revert s. induction hs as [|h hs IH]; intros s; simpl.
  - intros Heq. by injection Heq as ->.
  - intros (s1 & Hs1 & Hrest)%bind_Ok.
    rewrite (IH _ Hrest). exact (Hrun _ _ _ Hs1).
Qed.

Lemma broadcast_preserves {B} env nested msg (f : ChatServer -> B) cs st st' :
  (forall c st0, f (write_conn st0 c msg) = f st0) ->
  (forall c st0 st1, nested c st0 = Ok st1 -> f st1 = f st0) ->
  broadcast env nested msg cs st = Ok st' -> f st' = f st.
Proof.
  intros Hw Hn. revert st. induction cs as [|c cs IH]; intros st; simpl.
  - intros Heq. by injection Heq as ->.
  - intros (st1 & Hst1 & Hrest)%bind_Ok. rewrite (IH _ Hrest).
    destruct (write_ok env c).
    + injection Hst1 as <-. apply Hw.
    + exact (Hn _ _ _ Hst1).
Qed.

Lemma run_handler_with_bus env nested h ev st st' :
  (forall c st0 st1, nested c st0 = Ok st1 -> cs_bus st1 = cs_bus st0) ->
  run_handler_with env nested h ev st = Ok st' -> cs_bus st' = cs_bus st.
Proof.
  intros Hn. destruct h; simpl.
  - unfold onNewConnection. intros (c & _ & Heq)%bind_Ok. by injection Heq as <-.
  - unfold onDisconnected. intros (c & _ & Heq)%bind_Ok. by injection Heq as <-.
  - unfold onMessageReceived. intros (m & _ & Hb)%bind_Ok.
    eapply (broadcast_preserves env nested m cs_bus); eauto.
Qed.

Lemma no_deeper_bus c st0 st1 : no_deeper c st0 = Ok st1 -> cs_bus st1 = cs_bus st0.
Proof. discriminate. Qed.

Lemma dispatch_nested_bus env st t d st' :
  dispatch_nested env st t d = Ok st' -> cs_bus st' = cs_bus st.
Proof.
  unfold dispatch_nested, Bus.Dispatch. apply run_all_preserves.
  intros h s0 s1. apply run_handler_with_bus, no_deeper_bus.
Qed.

Lemma Dispatch_bus env st t d st' :
  Dispatch env st t d = Ok st' -> cs_bus st' = cs_bus st.
Proof.
  unfold Dispatch, Bus.Dispatch. apply run_all_preserves.
  intros h s0 s1. apply run_handler_with_bus.
  intros c s2 s3. apply dispatch_nested_bus.
Qed.

(* ------------------------------------------------------------------ *)
(** ** Claims about the event bus *)

(** C1: when the handlers registered for [t] are exactly [hs], registered
    in that order by [Register], one [Dispatch] of [t] runs exactly the
    sequential composition of [hs] in registration order (each handler
    returns before the next starts, and [Dispatch] returns the state left
    by the last one); with handlers that log their own invocation the log
    gains exactly [hs], each registered handler once, in order. *)
Theorem dispatch_runs_registered_in_order {H} (bus : gmap string (list H))
    (t : string) (hs : list H) (d : value) :
  bus !! t = None ->
  (forall S (run : H -> Event -> S -> res S) (s : S),
     Bus.Dispatch run (register_all bus t hs) t d s = Bus.run_all run hs (mkEvent t d) s) /\
  (forall log : list H,
     Bus.Dispatch record_run (register_all bus t hs) t d log = Ok (log ++ hs)).
Proof.
  intros Hnone.
  assert (Hh : Bus.handlers_for (register_all bus t hs) t = hs).
  { rewrite handlers_for_register_all. unfold Bus.handlers_for. by rewrite Hnone. }
  split.
  - intros S run s. unfold Bus.Dispatch. by rewrite Hh.
  - intros log. unfold Bus.Dispatch. rewrite Hh. apply run_all_record.
Qed.

Lemma dispatch_runs_registered_in_order_witness :
  (∅ : gmap string (list nat)) !! "tick" = None /\
  Bus.Dispatch record_run (register_all ∅ "tick" [3; 1; 3]) "tick" VNil [0]
    = Ok [0; 3; 1; 3].
Proof.
  split; [reflexivity|].
  apply (dispatch_runs_registered_in_order (∅ : gmap string (list nat)) "tick" [3; 1; 3] VNil).
  reflexivity.
Defined.

(** C7: dispatching an event type with no registered handler returns the
    server state unchanged (handler table, registry, writes and notices),
    without panicking. *)
Theorem dispatch_no_handlers_noop (env : Env) (st : ChatServer) (t : string) (d : value) :
  Bus.handlers_for (cs_bus st) t = [] ->
  Dispatch env st t d = Ok st.
Proof. intros Hnil. unfold Dispatch, Bus.Dispatch. by rewrite Hnil. Qed.

Lemma dispatch_no_handlers_noop_witness :
  Bus.handlers_for (cs_bus (set_bus NewChatServer server_bus)) "ping" = [] /\
  Dispatch env_demo (set_bus NewChatServer server_bus) "ping" (VInt 3)
    = Ok (set_bus NewChatServer server_bus).
Proof.
  split; [reflexivity|].
  apply dispatch_no_handlers_noop. reflexivity.
Defined.

(** C10: [Register bus t h] makes [h] the last handler for [t] and keeps
    the entry of every other type; a server [Dispatch] that returns never
    changes the handler table. *)
Theorem register_frame_dispatch_readonly :
  (forall H (bus : gmap string (list H)) (t : string) (h : H),
     Bus.handlers_for (Bus.Register bus t h) t = Bus.handlers_for bus t ++ [h] /\
     (forall t', t' <> t -> Bus.Register bus t h !! t' = bus !! t')) /\
  (forall (env : Env) (st st' : ChatServer) (t : string) (d : value),
     Dispatch env st t d = Ok st' -> cs_bus st' = cs_bus st).
Proof.
  split.
  - intros H bus t h. split.
    + apply handlers_for_Register_eq.
    + intros t' Hne. by apply Register_lookup_ne.
  - intros env st st' t d. apply Dispatch_bus.
Qed.

(* ------------------------------------------------------------------ *)
(** ** Lemmas on the server's handlers *)

Lemma server_bus_new : Bus.handlers_for server_bus "new-connection" = [OnNewConnection].
Proof. reflexivity. Qed.
Lemma server_bus_disc : Bus.handlers_for server_bus "disconnected" = [OnDisconnected].
Proof. reflexivity. Qed.
Lemma server_bus_msg : Bus.handlers_for server_bus "message-received" = [OnMessageReceived].
Proof. reflexivity. Qed.

Definition on_disc_state (st : ChatServer) (c : conn) : ChatServer :=
  add_notice (set_clients st (cs_clients st ∖ {[c]})) (NDisconnected c).
Definition on_new_state (st : ChatServer) (c : conn) : ChatServer :=
  add_notice (set_clients st ({[c]} ∪ cs_clients st)) (NNewConnection c).

Lemma Dispatch_new_server env st c :
  cs_bus st = server_bus ->
  Dispatch env st "new-connection" (VConn c) = Ok (on_new_state st c).
Proof. intros Hb. unfold Dispatch, Bus.Dispatch. by rewrite Hb, server_bus_new. Qed.

Lemma Dispatch_disc_server env st c :
  cs_bus st = server_bus ->
  Dispatch env st "disconnected" (VConn c) = Ok (on_disc_state st c).
Proof. intros Hb. unfold Dispatch, Bus.Dispatch. by rewrite Hb, server_bus_disc. Qed.

Lemma dispatch_nested_disc_server env st c :
  cs_bus st = server_bus ->
  dispatch_nested env st "disconnected" (VConn c) = Ok (on_disc_state st c).
Proof. intros Hb. unfold dispatch_nested, Bus.Dispatch. by rewrite Hb, server_bus_disc. Qed.

(** The placeholder [no_deeper] is never reached: a nested dispatch with a
    connection payload behaves the same whatever the next level would do. *)
Lemma nested_irrelevant env n1 n2 bus t c st :
  Bus.run_all (run_handler_with env n1) bus (mkEvent t (VConn c)) st =
  Bus.run_all (run_handler_with env n2) bus (mkEvent t (VConn c)) st.
Proof.
  revert st. induction bus as [|h hs IH]; intros st; simpl; [done|].
  destruct h; cbn; [apply IH | apply IH | reflexivity].
Qed.

Lemma written_write_conn st c m c' :
  cs_written (write_conn st c m) c' =
  if decide (c' = c) then cs_written st c' ++ m else cs_written st c'.
Proof. reflexivity. Qed.

Definition failed (env : Env) (c : conn) : bool := negb (write_ok env c).

Lemma broadcast_server env m (l : list conn) st :
  NoDup l -> cs_bus st = server_bus ->
  exists st',
    broadcast env (fun c s => dispatch_nested env s "disconnected" (VConn c)) m l st = Ok st' /\
    cs_bus st' = server_bus /\
    (forall c, c ∈ l -> write_ok env c = true -> cs_written st' c = cs_written st c ++ m) /\
    (forall c, (c ∉ l \/ write_ok env c = false) -> cs_written st' c = cs_written st c) /\
    (forall c, c ∈ cs_clients st' <-> c ∈ cs_clients st /\ ~ (c ∈ l /\ write_ok env c = false)) /\
    cs_log st' = cs_log st ++ map NDisconnected (List.filter (failed env) l).
Proof.
  revert st. induction l as [|c l IH]; intros st Hnd Hb.
  - exists st. simpl. split; [done|]. split; [done|]. split; [|split; [|split]].
    + intros c Hc. by apply not_elem_of_nil in Hc.
    + done.
    + intros c. split; [|tauto]. intros Hc. split; [done|].
      intros [Hin _]. by apply not_elem_of_nil in Hin.
    + by rewrite app_nil_r.
  - apply NoDup_cons in Hnd as [Hcl Hnd]. simpl.
    destruct (write_ok env c) eqn:Hw; simpl.
    + destruct (IH (write_conn st c m) Hnd Hb) as (st' & Hrun & Hb' & Hok & Hsame & Hcl' & Hlog).
      exists st'. rewrite Hrun. split; [done|]. split; [done|]. split; [|split; [|split]].
      * intros c' Hin Hw'. apply elem_of_cons in Hin as [->|Hin].
        -- rewrite Hsame by auto. rewrite written_write_conn. by case_decide.
        -- rewrite Hok by done. rewrite written_write_conn.
           case_decide; [subst; contradiction|done].
      * intros c' Hc'. rewrite Hsame.
        -- rewrite written_write_conn. case_decide; [|done].
           subst. destruct Hc' as [Hn|Hn]; [set_solver|congruence].
        -- destruct Hc' as [Hn|Hn]; [left; set_solver|by right].
      * intros c'. rewrite Hcl'. simpl. rewrite elem_of_cons.
        split; intros [H1 H2]; split; auto.
        -- intros [[->|Hin] Hf]; [congruence|]. apply H2. auto.
        -- intros [Hin Hf]. apply H2. auto.
      * rewrite Hlog. unfold failed at 2. simpl. rewrite Hw. done.
    + rewrite dispatch_nested_disc_server by done. simpl.
      destruct (IH (on_disc_state st c) Hnd Hb) as (st' & Hrun & Hb' & Hok & Hsame & Hcl' & Hlog).
      exists st'. rewrite Hrun. split; [done|]. split; [done|]. split; [|split; [|split]].
      * intros c' Hin Hw'. apply elem_of_cons in Hin as [->|Hin]; [congruence|].
        by rewrite Hok.
      * intros c' Hc'. rewrite Hsame; [done|].
        destruct Hc' as [Hn|Hn]; [left; set_solver|by right].
      * intros c'. rewrite Hcl'. simpl. rewrite elem_of_difference, elem_of_singleton, elem_of_cons.
        split.
        -- intros [[H1 H2] H3]. split; [done|]. intros [[->|Hin] Hf]; [done|]. auto.
        -- intros [H1 H2]. split; [split; [done|]|].
           ++ intros ->. apply H2. auto.
           ++ intros [Hin Hf]. apply H2. auto.
      * rewrite Hlog. unfold failed at 2. simpl. rewrite Hw. simpl.
        by rewrite <- app_assoc.
Qed.

Lemma broadcast_server_ok env m (l : list conn) st :
  cs_bus st = server_bus ->
  exists st',
    broadcast env (fun c s => dispatch_nested env s "disconnected" (VConn c)) m l st = Ok st'.
Proof.
  revert st. induction l as [|c l IH]; intros st Hb; simpl; [eauto|].
  destruct (write_ok env c); simpl.
  - apply IH. exact Hb.
  - rewrite dispatch_nested_disc_server by done. simpl. apply IH. exact Hb.
Qed.

Lemma set_clients_same st : set_clients st (cs_clients st) = st.
Proof. by destruct st. Qed.

(* ------------------------------------------------------------------ *)
(** ** Claims about the chat server *)

(** C2: on the server's handler table, with [range] visiting each member
    of the registry once, a [message-received] dispatch of [m] succeeds
    (nothing is reported back), appends exactly [m] to every member whose
    write succeeds (the sender is not singled out: the payload does not even
    name it) and keeps it registered, removes every member whose write
    fails (through a [disconnected] dispatch, whose notice is logged)
    without writing to it, and touches no connection outside the
    registry. *)
Theorem broadcast_complete_self_healing (env : Env) (st : ChatServer) (m : gostring) :
  cs_bus st = server_bus ->
  NoDup (range_order env (cs_clients st)) ->
  (forall c, c ∈ range_order env (cs_clients st) <-> c ∈ cs_clients st) ->
  exists st',
    Dispatch env st "message-received" (VString m) = Ok st' /\
    (forall c, c ∈ cs_clients st -> write_ok env c = true ->
       cs_written st' c = cs_written st c ++ m /\ c ∈ cs_clients st') /\
    (forall c, c ∈ cs_clients st -> write_ok env c = false ->
       cs_written st' c = cs_written st c /\ c ∉ cs_clients st') /\
    (forall c, c ∉ cs_clients st ->
       cs_written st' c = cs_written st c /\ c ∉ cs_clients st') /\
    cs_log st' = cs_log st ++
      map NDisconnected (List.filter (failed env) (range_order env (cs_clients st))).
Proof.
  intros Hb Hnd Hiff.
  destruct (broadcast_server env m _ st Hnd Hb)
    as (st' & Hrun & _ & Hok & Hsame & Hcl & Hlog).
  exists st'. split.
  { unfold Dispatch, Bus.Dispatch. rewrite Hb, server_bus_msg. cbn.
    rewrite Hrun. reflexivity. }
  split; [|split; [|split]].
  - intros c Hc Hw. split.
    + apply Hok; [by apply Hiff|done].
    + apply Hcl. split; [done|]. intros [_ Hf]. congruence.
  - intros c Hc Hw. split.
    + apply Hsame. by right.
    + rewrite Hcl. intros [_ Hn]. apply Hn. split; [by apply Hiff|done].
  - intros c Hc. split.
    + apply Hsame. left. rewrite Hiff. done.
    + rewrite Hcl. tauto.
  - exact Hlog.
Qed.

Definition st_two : ChatServer :=
  on_new_state (on_new_state (set_bus NewChatServer server_bus) 1) 2.

Lemma broadcast_complete_self_healing_witness :
  cs_bus st_two = server_bus /\
  NoDup (range_order env_demo (cs_clients st_two)) /\
  (forall c, c ∈ range_order env_demo (cs_clients st_two) <-> c ∈ cs_clients st_two) /\
  exists st',
    Dispatch env_demo st_two "message-received" (VString [x68]) = Ok st' /\
    (forall c, c ∈ cs_clients st_two -> write_ok env_demo c = true ->
       cs_written st' c = cs_written st_two c ++ [x68] /\ c ∈ cs_clients st') /\
    (forall c, c ∈ cs_clients st_two -> write_ok env_demo c = false ->
       cs_written st' c = cs_written st_two c /\ c ∉ cs_clients st') /\
    (forall c, c ∉ cs_clients st_two ->
       cs_written st' c = cs_written st_two c /\ c ∉ cs_clients st') /\
    cs_log st' = cs_log st_two ++
      map NDisconnected (List.filter (failed env_demo) (range_order env_demo (cs_clients st_two))).
Proof.
  assert (Hb : cs_bus st_two = server_bus) by reflexivity.
  assert (Hnd : NoDup (range_order env_demo (cs_clients st_two))) by apply NoDup_elements.
  assert (Hiff : forall c, c ∈ range_order env_demo (cs_clients st_two) <-> c ∈ cs_clients st_two)
    by (intros c; apply elem_of_elements).
  split; [exact Hb|]. split; [exact Hnd|]. split; [exact Hiff|].
  exact (broadcast_complete_self_healing env_demo st_two [x68] Hb Hnd Hiff).
Defined.

(** C3: on the server's handler table, a [new-connection] dispatch for [c]
    puts [c] in the registry, a following [disconnected] dispatch for [c]
    takes it out, and a [disconnected] dispatch for a connection not in the
    registry leaves the registry as it is. *)
Theorem registry_connect_disconnect (env : Env) (st : ChatServer) (c : conn) :
  cs_bus st = server_bus ->
  (exists st1,
     Dispatch env st "new-connection" (VConn c) = Ok st1 /\ c ∈ cs_clients st1 /\
     exists st2, Dispatch env st1 "disconnected" (VConn c) = Ok st2 /\ c ∉ cs_clients st2) /\
  (c ∉ cs_clients st ->
     exists st', Dispatch env st "disconnected" (VConn c) = Ok st' /\
                 cs_clients st' = cs_clients st).
Proof.
  intros Hb. split.
  - exists (on_new_state st c). rewrite Dispatch_new_server by done.
    split; [done|]. split; [simpl; set_solver|].
    exists (on_disc_state (on_new_state st c) c).
    rewrite Dispatch_disc_server by done. split; [done|]. simpl. set_solver.
  - intros Hc. exists (on_disc_state st c). rewrite Dispatch_disc_server by done.
    split; [done|]. simpl. set_solver.
Qed.

Lemma registry_connect_disconnect_witness :
  cs_bus st_two = server_bus /\
  (exists st1,
     Dispatch env_demo st_two "new-connection" (VConn 4) = Ok st1 /\ 4 ∈ cs_clients st1 /\
     exists st2, Dispatch env_demo st1 "disconnected" (VConn 4) = Ok st2 /\ 4 ∉ cs_clients st2) /\
  (4 ∉ cs_clients st_two ->
     exists st', Dispatch env_demo st_two "disconnected" (VConn 4) = Ok st' /\
                 cs_clients st' = cs_clients st_two).
Proof.
  assert (Hb : cs_bus st_two = server_bus) by reflexivity.
  split; [exact Hb|]. exact (registry_connect_disconnect env_demo st_two 4 Hb).
Defined.

(** C6, as stated: a second [disconnected] dispatch for an already removed
    connection repeats an observable effect of the first: the
    "Disconnected from" notice is printed again. *)
Lemma disconnected_twice_repeats_notice :
  exists st1 st2,
    Dispatch env_demo (set_bus NewChatServer server_bus) "disconnected" (VConn 5) = Ok st1 /\
    Dispatch env_demo st1 "disconnected" (VConn 5) = Ok st2 /\
    cs_log st1 = [NDisconnected 5] /\
    cs_log st2 = [NDisconnected 5; NDisconnected 5] /\
    cs_clients st2 = cs_clients st1.
Proof.
  eexists _, _. split; [reflexivity|]. split; [reflexivity|].
  split; [reflexivity|]. split; [reflexivity|]. simpl. set_solver.
Qed.

(** C6, amended: once a [disconnected] dispatch for [c] has run, a second
    one succeeds and leaves the registry, the handler table and every
    connection's writes unchanged; its only effect is one more
    "Disconnected from" notice for [c]. *)
Theorem disconnected_twice_only_notice (env : Env) (st : ChatServer) (c : conn) :
  cs_bus st = server_bus ->
  exists st1,
    Dispatch env st "disconnected" (VConn c) = Ok st1 /\
    (c ∉ cs_clients st1) /\
    Dispatch env st1 "disconnected" (VConn c) = Ok (add_notice st1 (NDisconnected c)).
Proof.
  intros Hb. exists (on_disc_state st c).
  rewrite Dispatch_disc_server by done. split; [done|]. split; [simpl; set_solver|].
  rewrite Dispatch_disc_server by done. unfold on_disc_state at 1.
  f_equal. f_equal.
  assert (Hset : cs_clients (on_disc_state st c) ∖ {[c]} = cs_clients (on_disc_state st c))
    by (simpl; set_solver).
  rewrite Hset. apply set_clients_same.
Qed.

Lemma disconnected_twice_only_notice_witness :
  cs_bus st_two = server_bus /\
  exists st1,
    Dispatch env_demo st_two "disconnected" (VConn 2) = Ok st1 /\
    (2 ∉ cs_clients st1) /\
    Dispatch env_demo st1 "disconnected" (VConn 2) = Ok (add_notice st1 (NDisconnected 2)).
Proof.
  assert (Hb : cs_bus st_two = server_bus) by reflexivity.
  split; [exact Hb|]. exact (disconnected_twice_only_notice env_demo st_two 2 Hb).
Defined.

(** C9: the handlers assert the payload's dynamic type without checking:
    [onNewConnection] and [onDisconnected] panic on a payload that is not a
    connection, [onMessageReceived] on one that is not a string; on the
    server's handler table, the three event types with their documented
    payloads never panic. *)
Theorem handlers_assert_payload (env : Env) :
  (forall nested ev st, (forall c, ev_data ev <> VConn c) ->
     (exists msg, run_handler_with env nested OnNewConnection ev st = Panic msg) /\
     (exists msg, run_handler_with env nested OnDisconnected ev st = Panic msg)) /\
  (forall nested ev st, (forall s, ev_data ev <> VString s) ->
     exists msg, run_handler_with env nested OnMessageReceived ev st = Panic msg) /\
  (forall st c m, cs_bus st = server_bus ->
     (exists st', Dispatch env st "new-connection" (VConn c) = Ok st') /\
     (exists st', Dispatch env st "disconnected" (VConn c) = Ok st') /\
     (exists st', Dispatch env st "message-received" (VString m) = Ok st')).
Proof.
  split; [|split].
  - intros nested [t d] st Hd. simpl in Hd.
    destruct d as [c|s|z|]; [exfalso; by apply (Hd c)| | |]; simpl; eauto.
  - intros nested [t d] st Hd. simpl in Hd.
    destruct d as [c|s|z|]; [| exfalso; by apply (Hd s) | |]; simpl; eauto.
  - intros st c m Hb. split; [|split].
    + eexists. by apply Dispatch_new_server.
    + eexists. by apply Dispatch_disc_server.
    + destruct (broadcast_server_ok env m (range_order env (cs_clients st)) st Hb) as [st' Hst'].
      exists st'. unfold Dispatch, Bus.Dispatch. rewrite Hb, server_bus_msg. cbn.
      rewrite Hst'. reflexivity.
Qed.

(* ------------------------------------------------------------------ *)
(** ** The reader loop *)

(** The reads before the first failing one, and whether a read failed. *)
Fixpoint reads_before_error (rs : list read_result) : list read_result * bool :=
  match rs with
  | [] => ([], false)
  | r :: rs' =>
      if rd_err r then ([], true)
      else let '(oks, ended) := reads_before_error rs' in (r :: oks, ended)
  end.

Definition message_events (oks : list read_result) : list (string * value) :=
  map (fun r => ("message-received", VString (rd_bytes r))) oks.

Lemma conn_read_fits buf r :
  length (rd_bytes r) <= length buf ->
  conn_read buf r = (length (rd_bytes r), rd_bytes r ++ drop (length (rd_bytes r)) buf).
Proof.
  intros Hle. unfold conn_read.
  rewrite Nat.min_l by exact Hle. by rewrite take_ge.
Qed.

Lemma read_loop_trace c buf reads tr :
  length buf = buf_size ->
  Forall (fun r => length (rd_bytes r) <= buf_size) reads ->
  read_loop trace_disp c buf reads tr =
  let '(oks, ended) := reads_before_error reads in
  if ended then LoopEnded (tr ++ message_events oks ++ [("disconnected", VConn c)])
  else LoopBlocked (tr ++ message_events oks).
Proof.
  revert buf tr. induction reads as [|r rs IH]; intros buf tr Hlen Hall.
  - simpl. by rewrite app_nil_r.
  - apply Forall_cons in Hall as [Hr Hrs].
    cbn [read_loop]. rewrite conn_read_fits by lia. cbn [reads_before_error].
    destruct (rd_err r); [simpl; done|]; simpl.
    rewrite take_app_length.
    rewrite IH.
    + destruct (reads_before_error rs) as [oks ended]. simpl.
      by destruct ended; rewrite <- app_assoc.
    + rewrite length_app, length_drop. lia.
    + exact Hrs.
Qed.

(** C5: the reader loop of [Client.Start] (after its own [new-connection]
    dispatch) uses a 1024-byte buffer; as long as the reads succeed, each
    read of a chunk (of at most 1024 bytes, as [Read] into that buffer
    returns) dispatches exactly one [message-received] event whose payload
    is exactly that chunk; the first read error (or end of stream)
    dispatches [disconnected] and ends the loop; with no error the loop
    goes on waiting for the next read. *)
Theorem reader_loop_dispatches (c : conn) (reads : list read_result) :
  Forall (fun r => length (rd_bytes r) <= buf_size) reads ->
  ClientStart trace_disp c reads [] =
  let '(oks, ended) := reads_before_error reads in
  let tr := ("new-connection", VConn c) :: message_events oks in
  if ended then LoopEnded (tr ++ [("disconnected", VConn c)]) else LoopBlocked tr.
Proof.
  intros Hall. unfold ClientStart. cbn [trace_disp app].
  rewrite read_loop_trace.
  - destruct (reads_before_error reads) as [oks ended]. simpl.
    by destruct ended.
  - by rewrite repeat_length.
  - exact Hall.
Qed.

Lemma reader_loop_dispatches_witness :
  Forall (fun r => length (rd_bytes r) <= buf_size)
    [mkRead [x68; x69] false; mkRead [] false; mkRead [x21] true; mkRead [x7a] false] /\
  ClientStart trace_disp 9
    [mkRead [x68; x69] false; mkRead [] false; mkRead [x21] true; mkRead [x7a] false] [] =
  LoopEnded [("new-connection", VConn 9); ("message-received", VString [x68; x69]);
             ("message-received", VString []); ("disconnected", VConn 9)].
Proof.
  assert (Hall : Forall (fun r => length (rd_bytes r) <= buf_size)
    [mkRead [x68; x69] false; mkRead [] false; mkRead [x21] true; mkRead [x7a] false])
    by (repeat constructor; simpl; unfold buf_size; lia).
  split; [exact Hall|].
  rewrite (reader_loop_dispatches 9 _ Hall). reflexivity.
Defined.

(* ------------------------------------------------------------------ *)
(** ** Start and main *)

(** C8: when [net.Listen] fails, [Start] returns the error at once, with
    the process as it was (no handler registered, no accept); [main] prints
    it and returns, so the process exits with an empty handler table and
    registry, no reader loop, and the error notice as its only output. *)
Theorem listen_failure_fatal (env : Env) (e : string) (accepts : list accept_result) :
  (forall port p, Start env port (ListenErr e) accepts p = StartReturned e p) /\
  main env (ListenErr e) accepts =
    Exited (mkProcess (mkServer ∅ ∅ (fun _ => []) [NStartError e]) []).
Proof. split; [intros port p|]; reflexivity. Qed.

(** The accept loop never starts a reader goroutine: the set of running
    reader loops is the one it started with. *)
Lemma accept_loop_readers env accepts p p' :
  accept_loop env accepts p = StartServing p' -> pr_readers p' = pr_readers p.
Proof.
  revert p. induction accepts as [|a rest IH]; intros p; simpl.
  - intros Heq. by injection Heq as <-.
  - destruct a as [c|e].
    + destruct (Dispatch env (pr_server p) "new-connection" (VConn c)); [|discriminate].
      intros H. apply IH in H. exact H.
    + intros H. apply IH in H. exact H.
Qed.

(** A failed accept is printed and the loop goes on with the next one. *)
Lemma accept_error_continues env e rest p :
  accept_loop env (AcceptErr e :: rest) p =
  accept_loop env rest (mkProcess (add_notice (pr_server p) (NAcceptError e)) (pr_readers p)).
Proof. reflexivity. Qed.

(** C4, as the code does it: after [main]'s listen succeeds, a successful
    accept of [c] dispatches [new-connection] (registering [c]) and goes back
    to [Accept]: no reader loop is started for [c], in this run or in any
    run of the accept loop. *)
Theorem accept_starts_no_reader_loop (env : Env) (c : conn) :
  main env ListenOk [AcceptOk c] =
    Running (mkProcess
      (on_new_state (set_bus (add_notice NewChatServer (NListening ":8000")) server_bus) c) []) /\
  (forall accepts p p', accept_loop env accepts p = StartServing p' ->
     pr_readers p' = pr_readers p).
Proof.
  split; [reflexivity|]. intros accepts p p'. apply accept_loop_readers.
Qed.

(* ------------------------------------------------------------------ *)
(** ** Further properties of the code *)

Lemma run_all_app {H S} (run : H -> Event -> S -> res S) hs1 hs2 ev s :
  Bus.run_all run (hs1 ++ hs2) ev s = (s1 ← Bus.run_all run hs1 ev s; Bus.run_all run hs2 ev s1).
Proof.
  revert s. induction hs1 as [|h hs1 IH]; intros s; simpl; [done|].
  destruct (run h ev s) as [s'|m]; simpl; [apply IH|done].
Qed.

(** [Register] then [Dispatch]: the new handler runs last, on the state
    left by the handlers registered before it. *)
Lemma dispatch_after_register {H S} (run : H -> Event -> S -> res S)
    (bus : gmap string (list H)) t h d s :
  Bus.Dispatch run (Bus.Register bus t h) t d s =
  (s1 ← Bus.Dispatch run bus t d s; run h (mkEvent t d) s1).
Proof.
  unfold Bus.Dispatch. rewrite handlers_for_Register_eq, run_all_app.
  destruct (Bus.run_all run (Bus.handlers_for bus t) (mkEvent t d) s); simpl; [|done].
  by destruct (run h _ a).
Qed.

(** A handler that panics aborts the dispatch: the handlers after it are
    never run and the panic reaches the dispatcher, whatever they are. *)
Lemma dispatch_panic_aborts {H S} (run : H -> Event -> S -> res S)
    (bus : gmap string (list H)) t d s hs1 h hs2 s1 m :
  Bus.handlers_for bus t = hs1 ++ h :: hs2 ->
  Bus.run_all run hs1 (mkEvent t d) s = Ok s1 ->
  run h (mkEvent t d) s1 = Panic m ->
  Bus.Dispatch run bus t d s = Panic m.
Proof.
  intros Hb H1 Hh. unfold Bus.Dispatch. rewrite Hb, run_all_app, H1. simpl.
  by rewrite Hh.
Qed.

Lemma dispatch_panic_aborts_witness :
  Bus.handlers_for (register_all ∅ "t" [1; 0; 2]) "t" = [1] ++ 0 :: [2] /\
  Bus.run_all run_panicky [1] (mkEvent "t" VNil) [] = Ok [1] /\
  run_panicky 0 (mkEvent "t" VNil) [1] = Panic "boom" /\
  Bus.Dispatch run_panicky (register_all ∅ "t" [1; 0; 2]) "t" VNil [] = Panic "boom".
Proof.
  assert (Hb : Bus.handlers_for (register_all ∅ "t" [1; 0; 2]) "t" = [1] ++ 0 :: [2])
    by reflexivity.
  assert (H1 : Bus.run_all run_panicky [1] (mkEvent "t" VNil) [] = Ok [1]) by reflexivity.
  assert (Hh : run_panicky 0 (mkEvent "t" VNil) [1] = Panic "boom") by reflexivity.
  split; [exact Hb|]. split; [exact H1|]. split; [exact Hh|].
  exact (dispatch_panic_aborts run_panicky _ "t" VNil [] [1] 0 [2] [1] "boom" Hb H1 Hh).
Defined.

Lemma broadcast_server_frame env m (l : list conn) st st' :
  cs_bus st = server_bus ->
  broadcast env (fun c s => dispatch_nested env s "disconnected" (VConn c)) m l st = Ok st' ->
  cs_bus st' = server_bus /\
  cs_clients st' ⊆ cs_clients st /\
  (forall c, c ∉ l -> cs_written st' c = cs_written st c) /\
  (forall c, c ∈ cs_clients st -> write_ok env c = true -> c ∈ cs_clients st').
Proof.
  revert st. induction l as [|c l IH]; intros st Hb Hrun; simpl in Hrun.
  - injection Hrun as <-. split; [done|]. split; [done|]. split; [done|]. auto.
  - destruct (write_ok env c) eqn:Hw; simpl in Hrun.
    + destruct ((fun Hb0 => IH _ Hb0 Hrun) Hb) as (Hb' & Hsub & Hw' & Hkeep).
      split; [done|]. split; [exact Hsub|]. split.
      * intros c' Hc'. rewrite Hw' by set_solver. rewrite written_write_conn.
        case_decide; [subst; set_solver|done].
      * intros c' Hin Hok. by apply Hkeep.
    + rewrite dispatch_nested_disc_server in Hrun by done. simpl in Hrun.
      destruct ((fun Hb0 => IH _ Hb0 Hrun) Hb) as (Hb' & Hsub & Hw' & Hkeep).
      split; [done|]. split; [simpl in Hsub; set_solver|]. split.
      * intros c' Hc'. rewrite Hw' by set_solver. done.
      * intros c' Hin Hok. apply Hkeep; [|done]. simpl.
        apply elem_of_difference. split; [done|].
        rewrite elem_of_singleton. intros ->. congruence.
Qed.

(** A [message-received] dispatch never adds a connection to the registry,
    never drops a connection whose write succeeds, and writes to no
    connection outside the registry (when [range] only visits members). *)
Lemma message_received_frame (env : Env) (st st' : ChatServer) (m : gostring) :
  cs_bus st = server_bus ->
  (forall c, c ∈ range_order env (cs_clients st) -> c ∈ cs_clients st) ->
  Dispatch env st "message-received" (VString m) = Ok st' ->
  cs_clients st' ⊆ cs_clients st /\
  (forall c, c ∈ cs_clients st -> write_ok env c = true -> c ∈ cs_clients st') /\
  (forall c, c ∉ cs_clients st -> cs_written st' c = cs_written st c).
Proof.
  intros Hb Hrange Hd. unfold Dispatch, Bus.Dispatch in Hd.
  rewrite Hb, server_bus_msg in Hd. cbn in Hd.
  destruct (broadcast _ _ _ _ _) as [s1|msg] eqn:Hrun; [|discriminate].
  injection Hd as ->.
  destruct (broadcast_server_frame env m _ st st' Hb Hrun) as (_ & Hsub & Hw & Hkeep).
  split; [done|]. split; [done|].
  intros c Hc. apply Hw. intros Hin. apply Hc. by apply Hrange.
Qed.

Lemma message_received_frame_witness :
  cs_bus st_two = server_bus /\
  (forall c, c ∈ range_order env_demo (cs_clients st_two) -> c ∈ cs_clients st_two) /\
  exists st',
    Dispatch env_demo st_two "message-received" (VString [x6f; x6b]) = Ok st' /\
    cs_clients st' ⊆ cs_clients st_two /\
    (forall c, c ∈ cs_clients st_two -> write_ok env_demo c = true -> c ∈ cs_clients st') /\
    (forall c, c ∉ cs_clients st_two -> cs_written st' c = cs_written st_two c).
Proof.
  assert (Hb : cs_bus st_two = server_bus) by reflexivity.
  assert (Hr : forall c, c ∈ range_order env_demo (cs_clients st_two) -> c ∈ cs_clients st_two)
    by (intros c; apply elem_of_elements).
  split; [exact Hb|]. split; [exact Hr|].
  eexists. split; [reflexivity|].
  apply (message_received_frame env_demo st_two _ [x6f; x6b] Hb Hr). reflexivity.
Defined.

(** With an empty registry a [message-received] dispatch changes nothing:
    no write, no notice. *)
Lemma message_received_empty_registry (env : Env) (st : ChatServer) (m : gostring) :
  cs_bus st = server_bus ->
  cs_clients st = ∅ ->
  (forall c, c ∈ range_order env (cs_clients st) -> c ∈ cs_clients st) ->
  Dispatch env st "message-received" (VString m) = Ok st.
Proof.
  intros Hb He Hrange.
  assert (Hnil : range_order env (cs_clients st) = []).
  { destruct (range_order env (cs_clients st)) as [|c l] eqn:Hl; [done|].
    exfalso. assert (Hc : c ∈ cs_clients st) by (apply Hrange; left).
    rewrite He in Hc. set_solver. }
  unfold Dispatch, Bus.Dispatch. rewrite Hb, server_bus_msg.
  unfold Bus.run_all, run_handler, run_handler_with, onMessageReceived.
  simpl. by rewrite Hnil.
Qed.

Lemma message_received_empty_registry_witness :
  cs_bus (set_bus NewChatServer server_bus) = server_bus /\
  cs_clients (set_bus NewChatServer server_bus) = ∅ /\
  (forall c, c ∈ range_order env_demo (cs_clients (set_bus NewChatServer server_bus)) ->
             c ∈ cs_clients (set_bus NewChatServer server_bus)) /\
  Dispatch env_demo (set_bus NewChatServer server_bus) "message-received" (VString [x61])
    = Ok (set_bus NewChatServer server_bus).
Proof.
  assert (Hb : cs_bus (set_bus NewChatServer server_bus) = server_bus) by reflexivity.
  assert (He : cs_clients (set_bus NewChatServer server_bus) = ∅) by reflexivity.
  assert (Hr : forall c, c ∈ range_order env_demo (cs_clients (set_bus NewChatServer server_bus)) ->
             c ∈ cs_clients (set_bus NewChatServer server_bus))
    by (intros c; apply elem_of_elements).
  split; [exact Hb|]. split; [exact He|]. split; [exact Hr|].
  exact (message_received_empty_registry env_demo _ [x61] Hb He Hr).
Defined.

Lemma read_loop_server_ends env c buf reads st st' :
  cs_bus st = server_bus ->
  read_loop (fun t d s => Dispatch env s t d) c buf reads st = LoopEnded st' ->
  c ∉ cs_clients st'.
Proof.
  revert buf st. induction reads as [|r rs IH]; intros buf st Hb Hl; simpl in Hl.
  - discriminate.
  - destruct (conn_read buf r) as [n buf'].
    destruct (rd_err r).
    + rewrite Dispatch_disc_server in Hl by done. injection Hl as <-.
      simpl. set_solver.
    + destruct (Dispatch env st "message-received" _) as [s1|msg] eqn:Hd; [|discriminate].
      refine (IH _ s1 _ Hl).
      rewrite (Dispatch_bus _ _ _ _ _ Hd). exact Hb.
Qed.

(** A reader loop wired to the server that leaves its loop (after a read
    error or end of stream) leaves its connection out of the registry. *)
Lemma reader_loop_end_unregisters (env : Env) (c : conn) (reads : list read_result)
    (st st' : ChatServer) :
  cs_bus st = server_bus ->
  ClientStart (fun t d s => Dispatch env s t d) c reads st = LoopEnded st' ->
  c ∉ cs_clients st'.
Proof.
  intros Hb Hl. unfold ClientStart in Hl.
  rewrite Dispatch_new_server in Hl by done.
  exact (read_loop_server_ends env c _ reads (on_new_state st c) st' Hb Hl).
Qed.

Lemma reader_loop_end_unregisters_witness :
  cs_bus st_two = server_bus /\
  exists st',
    ClientStart (fun t d s => Dispatch env_demo s t d) 1
      [mkRead [x61] false; mkRead [] true] st_two = LoopEnded st' /\
    1 ∉ cs_clients st'.
Proof.
  assert (Hb : cs_bus st_two = server_bus) by reflexivity.
  assert (Hex : exists st', ClientStart (fun t d s => Dispatch env_demo s t d) 1
    [mkRead [x61] false; mkRead [] true] st_two = LoopEnded st')
    by (eexists; vm_compute; reflexivity).
  split; [exact Hb|].
  destruct Hex as [st' Hl]. exists st'. split; [exact Hl|].
  exact (reader_loop_end_unregisters env_demo 1 _ st_two st' Hb Hl).
Defined.

Lemma Dispatch_msg_server env st m :
  cs_bus st = server_bus ->
  Dispatch env st "message-received" (VString m) =
  broadcast env (fun c s => dispatch_nested env s "disconnected" (VConn c)) m
    (range_order env (cs_clients st)) st.
Proof.
  intros Hb. unfold Dispatch, Bus.Dispatch. rewrite Hb, server_bus_msg. cbn.
  by destruct (broadcast _ _ _ _ _).
Qed.

Lemma read_loop_server_echo env c buf reads st :
  cs_bus st = server_bus -> write_ok env c = true ->
  (forall s, NoDup (range_order env s) /\ forall x, x ∈ range_order env s <-> x ∈ s) ->
  length buf = buf_size ->
  Forall (fun r => rd_err r = false /\ length (rd_bytes r) <= buf_size) reads ->
  c ∈ cs_clients st ->
  exists st',
    read_loop (fun t d s => Dispatch env s t d) c buf reads st = LoopBlocked st' /\
    c ∈ cs_clients st' /\
    cs_written st' c = cs_written st c ++ concat (map rd_bytes reads).
Proof.
  intros Hb Hw Hrange. revert buf st Hb.
  induction reads as [|r rs IH]; intros buf st Hb Hlen Hall Hc.
  - exists st. simpl. by rewrite app_nil_r.
  - apply Forall_cons in Hall as [[Herr Hr] Hrs].
    cbn [read_loop]. rewrite conn_read_fits by lia. cbv beta iota.
    rewrite Herr, take_app_length, Dispatch_msg_server by done.
    destruct (Hrange (cs_clients st)) as [Hnd Hiff].
    destruct (broadcast_server env (rd_bytes r) _ st Hnd Hb)
      as (s1 & Hrun & Hb1 & Hok & _ & Hcl & _).
    rewrite Hrun.
    assert (Hc1 : c ∈ cs_clients s1).
    { apply Hcl. split; [done|]. intros [_ Hf]. congruence. }
    assert (Hlen1 : length (rd_bytes r ++ drop (length (rd_bytes r)) buf) = buf_size)
      by (rewrite length_app, length_drop; lia).
    destruct (IH _ s1 Hb1 Hlen1 Hrs Hc1) as (st' & Hl & Hc' & Hwr).
    exists st'. split; [exact Hl|]. split; [exact Hc'|].
    rewrite Hwr, (Hok c) by (try apply Hiff; done).
    simpl. by rewrite app_assoc.
Qed.

(** A reader loop wired to the server, on a connection whose writes
    succeed and whose reads all succeed, keeps its connection registered
    and echoes every byte it reads back to that same connection, in order
    (the sender is in the registry like any other member). *)
Lemma reader_loop_echoes_to_sender (env : Env) (c : conn) (reads : list read_result)
    (st : ChatServer) :
  cs_bus st = server_bus ->
  write_ok env c = true ->
  (forall s, NoDup (range_order env s) /\ forall x, x ∈ range_order env s <-> x ∈ s) ->
  Forall (fun r => rd_err r = false /\ length (rd_bytes r) <= buf_size) reads ->
  exists st',
    ClientStart (fun t d s => Dispatch env s t d) c reads st = LoopBlocked st' /\
    c ∈ cs_clients st' /\
    cs_written st' c = cs_written st c ++ concat (map rd_bytes reads).
Proof.
  intros Hb Hw Hrange Hall. unfold ClientStart.
  rewrite Dispatch_new_server by done.
  apply (read_loop_server_echo env c _ reads (on_new_state st c) Hb Hw Hrange).
  - by rewrite repeat_length.
  - exact Hall.
  - simpl. set_solver.
Qed.

Lemma reader_loop_echoes_to_sender_witness :
  cs_bus st_two = server_bus /\
  write_ok env_demo 1 = true /\
  (forall s, NoDup (range_order env_demo s) /\ forall x, x ∈ range_order env_demo s <-> x ∈ s) /\
  Forall (fun r => rd_err r = false /\ length (rd_bytes r) <= buf_size)
    [mkRead [x68; x69] false; mkRead [x21] false] /\
  exists st',
    ClientStart (fun t d s => Dispatch env_demo s t d) 1
      [mkRead [x68; x69] false; mkRead [x21] false] st_two = LoopBlocked st' /\
    1 ∈ cs_clients st' /\
    cs_written st' 1 = cs_written st_two 1 ++ [x68; x69; x21].
Proof.
  assert (Hb : cs_bus st_two = server_bus) by reflexivity.
  assert (Hw : write_ok env_demo 1 = true) by reflexivity.
  assert (Hr : forall s, NoDup (range_order env_demo s) /\
                 forall x, x ∈ range_order env_demo s <-> x ∈ s)
    by (intros s; split; [apply NoDup_elements | intros x; apply elem_of_elements]).
  assert (Hall : Forall (fun r => rd_err r = false /\ length (rd_bytes r) <= buf_size)
    [mkRead [x68; x69] false; mkRead [x21] false])
    by (repeat constructor; simpl; unfold buf_size; lia).
  split; [exact Hb|]. split; [exact Hw|]. split; [exact Hr|]. split; [exact Hall|].
  exact (reader_loop_echoes_to_sender env_demo 1 _ st_two Hb Hw Hr Hall).
Defined.

Lemma accept_loop_server env accepts st rs :
  cs_bus st = server_bus ->
  exists st',
    accept_loop env accepts (mkProcess st rs) = StartServing (mkProcess st' rs) /\
    cs_bus st' = server_bus /\
    cs_clients st' = cs_clients st ∪ list_to_set (accepted_conns accepts) /\
    (forall c, cs_written st' c = cs_written st c) /\
    cs_log st' = cs_log st ++ accept_notices accepts.
Proof.
  revert st. induction accepts as [|a rest IH]; intros st Hb.
  - exists st. simpl. split; [done|]. split; [done|]. split; [set_solver|].
    split; [done|]. by rewrite app_nil_r.
  - destruct a as [c|e]; simpl.
    + rewrite Dispatch_new_server by done.
      destruct (IH (on_new_state st c) Hb) as (st' & Hl & Hb' & Hcl & Hw & Hlog).
      exists st'. split; [exact Hl|]. split; [done|]. split.
      * rewrite Hcl. simpl. set_solver.
      * split; [intros c'; apply Hw|]. rewrite Hlog. simpl. by rewrite <- app_assoc.
    + destruct (IH (add_notice st (NAcceptError e)) Hb) as (st' & Hl & Hb' & Hcl & Hw & Hlog).
      exists st'. split; [exact Hl|]. split; [done|]. split.
      * rewrite Hcl. simpl. set_solver.
      * split; [intros c'; apply Hw|]. rewrite Hlog. simpl. by rewrite <- app_assoc.
Qed.

(** Once [net.Listen] succeeds, [main] never returns and never panics: it
    stays in the accept loop with the three handlers registered, the
    registry holding exactly the connections accepted so far, nothing
    written to any connection, no reader loop, and a log of the listening
    notice followed by one notice per accept (accepted or failed), in
    order. *)
Lemma main_serves_after_listen (env : Env) (accepts : list accept_result) :
  exists p,
    main env ListenOk accepts = Running p /\
    pr_readers p = [] /\
    cs_bus (pr_server p) = server_bus /\
    cs_clients (pr_server p) = list_to_set (accepted_conns accepts) /\
    (forall c, cs_written (pr_server p) c = []) /\
    cs_log (pr_server p) = NListening ":8000" :: accept_notices accepts.
Proof.
  assert (Hb : cs_bus (set_bus (add_notice NewChatServer (NListening ":8000"))
                              (register_handlers Bus.NewEventBus)) = server_bus)
    by reflexivity.
  destruct (accept_loop_server env accepts _ [] Hb) as (st' & Hl & Hb' & Hcl & Hw & Hlog).
  exists (mkProcess st' []). unfold main, Start. simpl in Hl |- *. rewrite Hl.
  split; [done|]. split; [done|]. split; [done|]. split.
  - rewrite Hcl. simpl. set_solver.
  - split; [intros c; apply Hw|]. exact Hlog.
Qed.

Module CircuitBreakerFacts.
Import CircuitBreaker.

Example handler_not_found :
  handler DoRun (GetResp 404) =
  [HttpGet "https://www.example.com"; WriteHeader 500;
   WriteBody "Error: unexpected status code: 404"].
Proof. vm_compute. reflexivity. Qed.




End CircuitBreakerFacts.
